(** * Agent identity, construction defaults and interface types

    A shallow embedding of [typescript/src/agents/agent.ts] (the abstract
    [Agent] class, its options and the response types) and of the
    [analyzePrompt] tool specification documented in
    [docs/.../classifiers/built-in/anthropic-classifier.mdx], with the
    properties the specification states about them. *)

From Stdlib Require Import NArith QArith.
From stdpp Require Import gmap strings list.

Local Open Scope N_scope.
Local Set Warnings "-register-all".

(** ** JavaScript strings

    A JavaScript string is a sequence of UTF-16 code units; a regular
    expression without the [u] flag matches code unit by code unit. *)

Module Js.

Definition CodeUnit := N.
Definition JsString := list CodeUnit.

(** The code units of an ASCII literal. *)
Fixpoint utf16 (s : string) : JsString :=
  match s with
  | EmptyString => []
  | String a r => Ascii.N_of_ascii a :: utf16 r
  end.

Definition hyphen : CodeUnit := 45.

(** [a-z] *)
Definition isAsciiLower (c : CodeUnit) : bool := (97 <=? c) && (c <=? 122).
(** [A-Z] *)
Definition isAsciiUpper (c : CodeUnit) : bool := (65 <=? c) && (c <=? 90).
(** [0-9] *)
Definition isDigit (c : CodeUnit) : bool := (48 <=? c) && (c <=? 57).

(** The class [\s] of ECMAScript: WhiteSpace (TAB, VT, FF, ZWNBSP and the
    space separators) and LineTerminator (LF, CR, LS, PS). *)
Definition isWhiteSpace (c : CodeUnit) : bool :=
  ((9 <=? c) && (c <=? 13))
  || (c =? 32) || (c =? 160) || (c =? 5760)
  || ((8192 <=? c) && (c <=? 8202))
  || (c =? 8232) || (c =? 8233) || (c =? 8239) || (c =? 8287)
  || (c =? 12288) || (c =? 65279).

(** [s.replace(/C/g, r)] for a pattern [C] that matches one code unit (a
    character class): every matching unit is replaced by [r]. *)
Fixpoint replaceEach (C : CodeUnit -> bool) (r s : JsString) : JsString :=
  match s with
  | [] => []
  | c :: t => if C c then r ++ replaceEach C r t else c :: replaceEach C r t
  end.

(** [s.replace(/C+/g, r)]: the scan goes left to right and [C+] is greedy,
    so every maximal run of matching units is replaced by one [r].
    [inRun] says that the unit before [s] belonged to a run whose
    replacement is already written. *)
Fixpoint replaceRunsFrom (C : CodeUnit -> bool) (r : JsString)
         (inRun : bool) (s : JsString) : JsString :=
  match s with
  | [] => []
  | c :: t =>
      if C c
      then (if inRun then replaceRunsFrom C r true t
            else r ++ replaceRunsFrom C r true t)
      else c :: replaceRunsFrom C r false t
  end.

Definition replaceRuns (C : CodeUnit -> bool) (r s : JsString) : JsString :=
  replaceRunsFrom C r false s.

(** [toLowerCase] on the Basic Latin range: [A-Z] moves to [a-z].  Units
    outside Basic Latin are left alone here; [generateKeyFromName] only
    ever lowercases strings made of ASCII letters and hyphens (lemma
    [collapsed_units] below), on which this is [String.prototype.toLowerCase]. *)
Definition lowerUnit (c : CodeUnit) : CodeUnit :=
  if isAsciiUpper c then c + 32 else c.

Definition toLowerCase (s : JsString) : JsString := List.map lowerUnit s.

(** [a ?? b] *)
Definition nullish {A} (a : option A) (b : A) : A :=
  match a with Some v => v | None => b end.

(** Truthiness of an optional boolean ([undefined] is falsy). *)
Definition truthy (a : option bool) : bool :=
  match a with Some b => b | None => false end.

End Js.

Import Js.

Infix "??" := nullish (at level 45, right associativity).

(** ** Values and declared types

    [Record<string, any>] and [Record<string, string>] are types of
    objects used as maps; what they admit is read off the declaration. *)

Inductive JsValue : Type :=
| VUndefined
| VNull
| VBool (b : bool)
| VNumber (q : Q)
| VString (s : string)
| VObject (m : gmap string JsValue).

Inductive TsType : Type :=
| TAny
| TString
| TNumber
| TBoolean
| TRecord (value : TsType).   (* Record<string, value> *)

(** [inhabits t v]: the value [v] is of the declared type [t]. *)
Fixpoint inhabits (t : TsType) (v : JsValue) : Prop :=
  match t with
  | TAny => True
  | TString => match v with VString _ => True | _ => False end
  | TNumber => match v with VNumber _ => True | _ => False end
  | TBoolean => match v with VBool _ => True | _ => False end
  | TRecord t' =>
      match v with
      | VObject m => map_Forall (fun _ x => inhabits t' x) m
      | _ => False
      end
  end.

#[global] Instance inhabits_dec (t : TsType) (v : JsValue) : Decision (inhabits t v).
Proof.
  revert v; induction t; intros v; simpl; try apply _;
    destruct v; simpl; apply _.
Defined.

(** ** Loggers

    A logger is an object with the five console methods.  What a call does
    is its effect on the world it writes to; the world records the lines
    written, oldest first. *)

Inductive LogLevel := Info | Warn | Error | Debug | Log.

Definition World := list (LogLevel * JsString).

Record Logger := {
  info  : JsString -> World -> World;
  warn  : JsString -> World -> World;
  error : JsString -> World -> World;
  debug : JsString -> World -> World;
  log   : JsString -> World -> World
}.

(** The global [console]. *)
Definition console : Logger := {|
  info  := fun m w => w ++ [(Info, m)];
  warn  := fun m w => w ++ [(Warn, m)];
  error := fun m w => w ++ [(Error, m)];
  debug := fun m w => w ++ [(Debug, m)];
  log   := fun m w => w ++ [(Log, m)]
|}.

(** [{ info: () => {}, warn: () => {}, error: () => {}, debug: () => {}, log: () => {} }] *)
Definition silentLogger : Logger := {|
  info  := fun _ w => w;
  warn  := fun _ w => w;
  error := fun _ w => w;
  debug := fun _ w => w;
  log   := fun _ w => w
|}.

(** Every logging operation does nothing. *)
Definition isNoop (l : Logger) : Prop :=
  forall (m : JsString) (w : World),
    info l m w = w /\ warn l m w = w /\ error l m w = w
    /\ debug l m w = w /\ log l m w = w.

(** ** Agent options, results and responses *)

Module AgentOptions.
Record t := {
  name : JsString;
  description : JsString;
  modelId : option JsString;
  region : option JsString;
  saveChat : option bool;
  logger : option Logger;
  LOG_AGENT_DEBUG_TRACE : option bool
}.
End AgentOptions.

Module AgentProcessingResult.
Record t := {
  userInput : JsString;
  agentId : JsString;
  agentName : JsString;
  userId : JsString;
  sessionId : JsString;
  additionalParams : gmap string JsValue
}.

(** The declared type of the field: [Record<string, any>]. *)
Definition additionalParams_type : TsType := TRecord TAny.
End AgentProcessingResult.

(** ** The abstract class [Agent] *)

Module Agent.

Record t := {
  name : JsString;
  id : JsString;
  description : JsString;
  saveChat : bool;
  logger : Logger;
  LOG_AGENT_DEBUG_TRACE : option bool
}.

(** The class of [/[^a-zA-Z\s-]/]: neither an ASCII letter, nor
    whitespace, nor a hyphen. *)
Definition special (c : CodeUnit) : bool :=
  negb (isAsciiLower c || isAsciiUpper c || isWhiteSpace c || (c =? hyphen)).

Definition generateKeyFromName (name : JsString) : JsString :=
  let key :=
    toLowerCase
      (replaceRuns isWhiteSpace [hyphen]
         (replaceEach special [] name)) in
  key.

(** The constructor, assignment by assignment; the logger line reads the
    field [LOG_AGENT_DEBUG_TRACE] that the line before it has set.  The
    field initialiser [logger = console] is overwritten by that line in
    every case, so it leaves no trace in the constructed object. *)
Definition constructor (options : AgentOptions.t) : t :=
  let this_name := AgentOptions.name options in
  let this_id := generateKeyFromName (AgentOptions.name options) in
  let this_description := AgentOptions.description options in
  let this_saveChat := AgentOptions.saveChat options ?? true in
  let this_LOG_AGENT_DEBUG_TRACE :=
    Some (AgentOptions.LOG_AGENT_DEBUG_TRACE options ?? false) in
  let this_logger :=
    AgentOptions.logger options
      ?? (if truthy this_LOG_AGENT_DEBUG_TRACE then console else silentLogger) in
  {| name := this_name;
     id := this_id;
     description := this_description;
     saveChat := this_saveChat;
     logger := this_logger;
     LOG_AGENT_DEBUG_TRACE := this_LOG_AGENT_DEBUG_TRACE |}.

(** The declared type of the optional last argument of [processRequest]:
    [Record<string, string>]. *)
Definition processRequest_additionalParams_type : TsType := TRecord TString.

End Agent.

(** Options with the debug trace switched on and no logger. *)
Definition tracedOptions (name description : string) : AgentOptions.t := {|
  AgentOptions.name := utf16 name;
  AgentOptions.description := utf16 description;
  AgentOptions.modelId := None;
  AgentOptions.region := None;
  AgentOptions.saveChat := None;
  AgentOptions.logger := None;
  AgentOptions.LOG_AGENT_DEBUG_TRACE := Some true
|}.

(** Options that give only the two mandatory fields. *)
Definition plainOptions (name description : string) : AgentOptions.t := {|
  AgentOptions.name := utf16 name;
  AgentOptions.description := utf16 description;
  AgentOptions.modelId := None;
  AgentOptions.region := None;
  AgentOptions.saveChat := None;
  AgentOptions.logger := None;
  AgentOptions.LOG_AGENT_DEBUG_TRACE := None
|}.

(** The derivation as the specification words it: strip what is neither
    alphanumeric nor hyphen (whitespace kept at this step), collapse each
    whitespace run to one hyphen, lowercase. *)
Definition specSpecial (c : CodeUnit) : bool :=
  negb (isAsciiLower c || isAsciiUpper c || isDigit c
        || isWhiteSpace c || (c =? hyphen)).

Definition deriveIdentifier_spec (name : JsString) : JsString :=
  toLowerCase (replaceRuns isWhiteSpace [hyphen] (replaceEach specSpecial [] name)).

(** ** Responses

    [AgentResponse] pairs the metadata with an output that is either an
    [AccumulatorTransform] or a string, and a [streaming] flag. *)

(** Modelled from the spec: [AccumulatorTransform] is imported from
    [../utils/helpers], which is not among the sources.  The spec's
    OutputAccumulator forwards each chunk as it arrives, concatenates it
    into a buffer, and knows whether the stream has completed. *)
Record AccumulatorTransform := {
  forwarded : list JsString;
  accumulated : JsString;
  completed : bool
}.


Inductive Output :=
| OutTransform (a : AccumulatorTransform)
| OutString (s : JsString).

Module AgentResponse.
Record t := {
  metadata : AgentProcessingResult.t;
  output : Output;
  streaming : bool
}.
End AgentResponse.







(** ** The [analyzePrompt] tool specification

    The JSON document of the classifier's tool, with the three keywords it
    uses: [type], [properties] and [required]. *)

Inductive JsonType := JString | JNumber | JBoolean | JObject | JNull.

Inductive Schema :=
| MkSchema (type : JsonType) (properties : list (string * Schema))
           (required : list string).

Definition schema_type (s : Schema) : JsonType :=
  match s with MkSchema t _ _ => t end.
Definition schema_properties (s : Schema) : list (string * Schema) :=
  match s with MkSchema _ p _ => p end.
Definition schema_required (s : Schema) : list string :=
  match s with MkSchema _ _ r => r end.

Record Tool := {
  tool_name : string;
  tool_description : string;
  input_schema : Schema
}.

Definition analyzePrompt : Tool := {|
  tool_name := "analyzePrompt";
  tool_description := "Analyze the user input and provide structured output";
  input_schema :=
    MkSchema JObject
      [ ("userinput", MkSchema JString [] []);
        ("selected_agent", MkSchema JString [] []);
        ("confidence", MkSchema JNumber [] []) ]
      [ "userinput"; "selected_agent"; "confidence" ]
|}.

Definition hasJsonType (t : JsonType) (v : JsValue) : bool :=
  match t, v with
  | JString, VString _ => true
  | JNumber, VNumber _ => true
  | JBoolean, VBool _ => true
  | JObject, VObject _ => true
  | JNull, VNull => true
  | _, _ => false
  end.

(** A value conforms to a schema: it has the schema's type, and when it is
    an object every required key is present and every present property
    conforms to its own schema. *)
Fixpoint conforms (s : Schema) (v : JsValue) : bool :=
  match s with
  | MkSchema t props req =>
      hasJsonType t v
      && match v with
         | VObject m =>
             forallb (fun k => bool_decide (is_Some (m !! k))) req
             && forallb
                  (fun p =>
                     match m !! fst p with
                     | Some x => conforms (snd p) x
                     | None => true
                     end)
                  props
         | _ => true
         end
  end.

(** A classification response as the specification describes it: the three
    fields present, two strings and a number between 0 and 1. *)
Definition specResponse (v : JsValue) : Prop :=
  exists (m : gmap string JsValue) (u a : string) (c : Q),
    v = VObject m
    /\ m !! "userinput" = Some (VString u)
    /\ m !! "selected_agent" = Some (VString a)
    /\ m !! "confidence" = Some (VNumber c)
    /\ (0 <= c)%Q /\ (c <= 1)%Q.

(** The same without the bound on [confidence]. *)
Definition typedResponse (v : JsValue) : Prop :=
  exists (m : gmap string JsValue) (u a : string) (c : Q),
    v = VObject m
    /\ m !! "userinput" = Some (VString u)
    /\ m !! "selected_agent" = Some (VString a)
    /\ m !! "confidence" = Some (VNumber c).

(** The example response of the documentation. *)
Definition exampleResponse : JsValue :=
  VObject (<["userinput" := VString "I need to reset my password"]>
           (<["selected_agent" := VString "tech-support-agent"]>
            (<["confidence" := VNumber (95 # 100)]> ∅))).

(** A response with all three fields whose confidence is 5. *)
Definition overconfidentResponse : JsValue :=
  VObject (<["userinput" := VString "hello"]>
           (<["selected_agent" := VString "unknown"]>
            (<["confidence" := VNumber (5 # 1)]> ∅))).

(** A parameter bag with a number in it. *)
Definition retryParams : gmap string JsValue := {[ "retries" := VNumber (3 # 1) ]}.

(** The units an identifier is made of: [a-z] and the hyphen. *)
Definition keyUnit (c : CodeUnit) : bool := isAsciiLower c || (c =? hyphen).

(** The derivation started inside ([inRun = true]) or outside a whitespace
    run; [generateKeyFromName] is [keyFrom false]. *)
Definition keyFrom (inRun : bool) (name : JsString) : JsString :=
  toLowerCase
    (replaceRunsFrom isWhiteSpace [hyphen] inRun
       (replaceEach Agent.special [] name)).

(** [a-zA-Z] *)
Definition isAsciiLetter (c : CodeUnit) : bool := isAsciiLower c || isAsciiUpper c.

(** Two names that differ at most in the case of their ASCII letters. *)
Definition sameUpToCase (n1 n2 : JsString) : Prop :=
  Forall2 (fun a b => lowerUnit a = lowerUnit b) n1 n2.

(** * Properties *)

(** ** Code-unit classes *)

Ltac unit_prop :=
  unfold keyUnit, Agent.special, specSpecial, lowerUnit,
    isAsciiLower, isAsciiUpper, isDigit, isWhiteSpace, hyphen in *;
  rewrite ?negb_true_iff, ?negb_false_iff in *;
  rewrite ?orb_true_iff, ?orb_false_iff, ?andb_true_iff, ?andb_false_iff,
    ?N.leb_le, ?N.leb_gt, ?N.eqb_eq, ?N.eqb_neq in *.

Lemma keyUnit_not_whitespace c : keyUnit c = true -> isWhiteSpace c = false.
Proof.
  intros H. destruct (isWhiteSpace c) eqn:E; [exfalso | reflexivity].
  unit_prop. lia.
Qed.

Lemma keyUnit_not_upper c : keyUnit c = true -> isAsciiUpper c = false.
Proof.
  intros H. destruct (isAsciiUpper c) eqn:E; [exfalso | reflexivity].
  unit_prop. lia.
Qed.

Lemma keyUnit_not_digit c : keyUnit c = true -> isDigit c = false.
Proof.
  intros H. destruct (isDigit c) eqn:E; [exfalso | reflexivity].
  unit_prop. lia.
Qed.

Lemma keyUnit_not_special c : keyUnit c = true -> Agent.special c = false.
Proof.
  unfold keyUnit, Agent.special. intros H.
  destruct (isAsciiLower c), (isAsciiUpper c), (isWhiteSpace c), (c =? hyphen);
    simpl in *; congruence.
Qed.

Lemma keyUnit_lower c : keyUnit c = true -> lowerUnit c = c.
Proof.
  intros H. unfold lowerUnit. now rewrite (keyUnit_not_upper c H).
Qed.

Lemma digit_special c : isDigit c = true -> Agent.special c = true.
Proof. intros H. unit_prop. lia. Qed.

Lemma digit_not_specSpecial c : isDigit c = true -> specSpecial c = false.
Proof.
  unfold specSpecial. intros ->.
  now rewrite negb_false_iff, !orb_true_r.
Qed.

Lemma digit_not_whitespace c : isDigit c = true -> isWhiteSpace c = false.
Proof.
  intros H. destruct (isWhiteSpace c) eqn:E; [exfalso | reflexivity].
  unit_prop. lia.
Qed.

Lemma digit_lower c : isDigit c = true -> lowerUnit c = c /\ isDigit (lowerUnit c) = true.
Proof.
  intros H. assert (isAsciiUpper c = false) as E.
  { destruct (isAsciiUpper c) eqn:E; [exfalso | reflexivity]. unit_prop. lia. }
  unfold lowerUnit. now rewrite E.
Qed.

Lemma nondigit_lower c : isDigit c = false -> isDigit (lowerUnit c) = false.
Proof.
  intros H. unfold lowerUnit. destruct (isAsciiUpper c) eqn:E; [| exact H].
  unit_prop. lia.
Qed.

Lemma nondigit_special c : isDigit c = false -> specSpecial c = Agent.special c.
Proof.
  unfold specSpecial, Agent.special. intros ->. now rewrite orb_false_r.
Qed.

(** A unit that survives the first replacement and is not whitespace becomes
    a lowercase letter or a hyphen. *)
Lemma kept_lower_keyUnit c :
  Agent.special c = false -> isWhiteSpace c = false -> keyUnit (lowerUnit c) = true.
Proof.
  intros Hs Hw. unfold lowerUnit.
  destruct (isAsciiUpper c) eqn:Hu.
  - unit_prop. lia.
  - unfold Agent.special in Hs. rewrite Hu, Hw in Hs. unfold keyUnit.
    destruct (isAsciiLower c), (c =? hyphen); simpl in *; congruence.
Qed.

Lemma keyUnit_hyphen : keyUnit hyphen = true.
Proof. reflexivity. Qed.

Lemma lowerUnit_hyphen : lowerUnit hyphen = hyphen.
Proof. reflexivity. Qed.

(** ** The three steps of [generateKeyFromName] *)

Lemma generateKeyFromName_keyFrom name :
  Agent.generateKeyFromName name = keyFrom false name.
Proof. reflexivity. Qed.

Lemma keyFrom_cons b c t :
  keyFrom b (c :: t) =
    if Agent.special c then keyFrom b t
    else if isWhiteSpace c
         then (if b then keyFrom true t else hyphen :: keyFrom true t)
         else lowerUnit c :: keyFrom false t.
Proof.
  unfold keyFrom. simpl. destruct (Agent.special c); [reflexivity |].
  simpl. destruct (isWhiteSpace c); [destruct b |]; reflexivity.
Qed.

(** After the two replacements only ASCII letters and hyphens are left,
    which is all that [toLowerCase] is applied to. *)
Lemma collapsed_units b name :
  Forall (fun c => (isAsciiLower c || isAsciiUpper c || (c =? hyphen)) = true)
         (replaceRunsFrom isWhiteSpace [hyphen] b (replaceEach Agent.special [] name)).
Proof.
  revert b. induction name as [| c t IH]; intros b; [constructor |]. simpl.
  destruct (Agent.special c) eqn:Hs; [apply IH |]. simpl.
  destruct (isWhiteSpace c) eqn:Hw.
  - destruct b; [apply IH |]. constructor; [reflexivity | apply IH].
  - constructor; [| apply IH].
    unfold Agent.special in Hs. rewrite Hw in Hs.
    destruct (isAsciiLower c), (isAsciiUpper c), (c =? hyphen);
      simpl in *; congruence.
Qed.

Lemma keyFrom_units b name : Forall (fun c => keyUnit c = true) (keyFrom b name).
Proof.
  revert b. induction name as [| c t IH]; intros b.
  - constructor.
  - rewrite keyFrom_cons.
    destruct (Agent.special c) eqn:Hs; [apply IH |].
    destruct (isWhiteSpace c) eqn:Hw.
    + destruct b; [apply IH |]. constructor; [apply keyUnit_hyphen | apply IH].
    + constructor; [now apply kept_lower_keyUnit | apply IH].
Qed.

Lemma keyFrom_fixed b s : Forall (fun c => keyUnit c = true) s -> keyFrom b s = s.
Proof.
  intros H. revert b. induction H as [| c t Hc Ht IH]; intros b.
  - reflexivity.
  - rewrite keyFrom_cons, (keyUnit_not_special c Hc),
      (keyUnit_not_whitespace c Hc), (keyUnit_lower c Hc).
    f_equal. apply IH.
Qed.

(** The units of an identifier, spelled out. *)
Lemma generateKeyFromName_units name :
  Forall (fun c => keyUnit c = true) (Agent.generateKeyFromName name).
Proof. rewrite generateKeyFromName_keyFrom. apply keyFrom_units. Qed.

(** The source's first replacement is the specification's after the digits
    have been taken out. *)
Lemma replaceEach_special_digits name :
  replaceEach Agent.special [] name
  = replaceEach specSpecial [] (replaceEach isDigit [] name).
Proof.
  induction name as [| c t IH]; [reflexivity |]. simpl.
  destruct (isDigit c) eqn:Hd.
  - now rewrite (digit_special c Hd).
  - simpl. rewrite (nondigit_special c Hd).
    destruct (Agent.special c); simpl; now rewrite IH.
Qed.

(** What the source computes, in the specification's terms: the derivation
    of the name without its digits. *)
Lemma generateKeyFromName_spec_without_digits name :
  Agent.generateKeyFromName name
  = deriveIdentifier_spec (replaceEach isDigit [] name).
Proof.
  unfold Agent.generateKeyFromName, deriveIdentifier_spec.
  now rewrite replaceEach_special_digits.
Qed.

Lemma generateKeyFromName_no_digit name :
  List.filter isDigit (Agent.generateKeyFromName name) = [].
Proof.
  induction (generateKeyFromName_units name) as [| c t Hc _ IH]; [reflexivity |].
  simpl. now rewrite (keyUnit_not_digit c Hc).
Qed.

(** The derivation of the specification keeps every digit, in order. *)
Lemma deriveIdentifier_spec_digits name :
  List.filter isDigit (deriveIdentifier_spec name) = List.filter isDigit name.
Proof.
  unfold deriveIdentifier_spec, replaceRuns. generalize false as b.
  induction name as [| c t IH]; intros b; [reflexivity |]. simpl.
  destruct (isDigit c) eqn:Hd.
  - rewrite (digit_not_specSpecial c Hd). simpl.
    rewrite (digit_not_whitespace c Hd). simpl.
    destruct (digit_lower c Hd) as [_ ->]. f_equal.
    destruct (digit_lower c Hd) as [-> _]. f_equal. apply IH.
  - destruct (specSpecial c); simpl; [apply IH |].
    destruct (isWhiteSpace c); simpl.
    + destruct b; simpl; apply IH.
    + rewrite (nondigit_lower c Hd). apply IH.
Qed.

(** On a name with a digit the source and the specification disagree. *)
Lemma generateKeyFromName_differs_on_digits name :
  existsb isDigit name = true ->
  Agent.generateKeyFromName name <> deriveIdentifier_spec name.
Proof.
  intros H E. apply (f_equal (List.filter isDigit)) in E.
  rewrite generateKeyFromName_no_digit, deriveIdentifier_spec_digits in E.
  apply existsb_exists in H as (c & Hin & Hd).
  assert (In c (List.filter isDigit name)) as Hc by (apply filter_In; auto).
  rewrite <- E in Hc. destruct Hc.
Qed.

(** On a name without digits they agree. *)
Lemma generateKeyFromName_agrees_without_digits name :
  existsb isDigit name = false ->
  Agent.generateKeyFromName name = deriveIdentifier_spec name.
Proof.
  intros H. rewrite generateKeyFromName_spec_without_digits. f_equal.
  induction name as [| c t IH]; [reflexivity |]. simpl in *.
  apply orb_false_iff in H as [-> Ht]. now rewrite IH.
Qed.

(** ** Identifier derivation *)

(** C1: the identifier of an agent is its name with the characters that are
    neither alphanumeric nor hyphen removed, whitespace runs collapsed to a
    hyphen, and lowercased, so that digits survive.  The source removes the
    digits as well: for the name "Agent 1" the constructor stores "agent-",
    where the derivation of the claim gives "agent-1". *)
Theorem generateKeyFromName_drops_digits :
  Agent.id (Agent.constructor (plainOptions "Agent 1" "Numbered agent"))
    = utf16 "agent-"
  /\ deriveIdentifier_spec (utf16 "Agent 1") = utf16 "agent-1".
Proof. split; reflexivity. Qed.

(** C2: identifier derivation is deterministic and idempotent: two agents
    built from the same name get the same identifier, whatever their other
    options, and deriving from a derived identifier returns it unchanged. *)
Theorem derivation_deterministic_idempotent (o1 o2 : AgentOptions.t)
    (Hname : AgentOptions.name o1 = AgentOptions.name o2) :
  Agent.id (Agent.constructor o1) = Agent.id (Agent.constructor o2)
  /\ Agent.generateKeyFromName (Agent.generateKeyFromName (AgentOptions.name o1))
     = Agent.generateKeyFromName (AgentOptions.name o1).
Proof.
  split.
  - simpl. now rewrite Hname.
  - rewrite (generateKeyFromName_keyFrom (Agent.generateKeyFromName _)).
    apply keyFrom_fixed, generateKeyFromName_units.
Qed.

Lemma derivation_deterministic_idempotent_witness :
  AgentOptions.name (plainOptions "Tech Support Agent" "Fixes things")
  = AgentOptions.name (plainOptions "Tech Support Agent" "Resolves issues")
  /\ Agent.id (Agent.constructor (plainOptions "Tech Support Agent" "Fixes things"))
     = Agent.id (Agent.constructor (plainOptions "Tech Support Agent" "Resolves issues"))
  /\ Agent.generateKeyFromName (Agent.generateKeyFromName (utf16 "Tech Support Agent"))
     = Agent.generateKeyFromName (utf16 "Tech Support Agent").
Proof.
  split; [reflexivity |].
  apply (derivation_deterministic_idempotent
           (plainOptions "Tech Support Agent" "Fixes things")
           (plainOptions "Tech Support Agent" "Resolves issues")).
  reflexivity.
Defined.

(** C9: identifier derivation is not injective: a name made of digits only
    derives the empty identifier, so the agents named "1" and "2" are two
    differently named agents with the same, empty id. *)
Theorem generateKeyFromName_not_injective :
  (forall name, forallb isDigit name = true -> Agent.generateKeyFromName name = [])
  /\ utf16 "1" <> utf16 "2"
  /\ Agent.id (Agent.constructor (plainOptions "1" "First")) = []
  /\ Agent.id (Agent.constructor (plainOptions "2" "Second")) = []
  /\ ~ (forall n1 n2, Agent.generateKeyFromName n1 = Agent.generateKeyFromName n2
                      -> n1 = n2).
Proof.
  split; [| split; [| split; [| split]]].
  - intros name H. rewrite generateKeyFromName_keyFrom. generalize false as b.
    induction name as [| c t IH]; intros b; [reflexivity |].
    simpl in H. apply andb_true_iff in H as [Hc Ht].
    rewrite keyFrom_cons, (digit_special c Hc). now apply IH.
  - discriminate.
  - reflexivity.
  - reflexivity.
  - intros Hinj. specialize (Hinj (utf16 "1") (utf16 "2") eq_refl). discriminate.
Qed.

(** C10: a derived identifier, and so the id of every constructed agent, is
    made of lowercase ASCII letters and hyphens only: no uppercase letter,
    no digit, no whitespace, nothing else. *)
Theorem generateKeyFromName_alphabet (options : AgentOptions.t) :
  Agent.id (Agent.constructor options)
    = Agent.generateKeyFromName (AgentOptions.name options)
  /\ Forall
       (fun c => (isAsciiLower c = true \/ c = hyphen)
                 /\ isAsciiUpper c = false
                 /\ isDigit c = false
                 /\ isWhiteSpace c = false)
       (Agent.generateKeyFromName (AgentOptions.name options)).
Proof.
  split; [reflexivity |].
  eapply Forall_impl; [apply generateKeyFromName_units |].
  intros c Hc. simpl. split; [| split; [| split]].
  - unfold keyUnit in Hc. apply orb_true_iff in Hc as [Hl | Hh]; [now left |].
    right. now apply N.eqb_eq.
  - now apply keyUnit_not_upper.
  - now apply keyUnit_not_digit.
  - now apply keyUnit_not_whitespace.
Qed.

(** ** Construction defaults *)

(** C3: an agent built from options without [saveChat] has the flag set to
    true; built with an explicit value, the flag is that value. *)
Theorem constructor_saveChat (options : AgentOptions.t) :
  (AgentOptions.saveChat options = None ->
   Agent.saveChat (Agent.constructor options) = true)
  /\ (forall b, AgentOptions.saveChat options = Some b ->
                Agent.saveChat (Agent.constructor options) = b).
Proof.
  split.
  - intros H. simpl. now rewrite H.
  - intros b H. simpl. now rewrite H.
Qed.

(** C4: with no logger injected the agent's logger depends on the debug
    trace flag.  When the flag is absent or false every logging operation
    does nothing; when the flag is true the logger is the console. *)
Theorem constructor_logger_default (options : AgentOptions.t)
    (Hlogger : AgentOptions.logger options = None) :
  (AgentOptions.LOG_AGENT_DEBUG_TRACE options <> Some true ->
   isNoop (Agent.logger (Agent.constructor options)))
  /\ (AgentOptions.LOG_AGENT_DEBUG_TRACE options = Some true ->
      Agent.logger (Agent.constructor options) = console).
Proof.
  split; intros Htrace; simpl; rewrite Hlogger; simpl.
  - destruct (AgentOptions.LOG_AGENT_DEBUG_TRACE options) as [[|] |];
      simpl; [congruence | |]; intros m w; repeat split.
  - now rewrite Htrace.
Qed.

Lemma constructor_logger_default_witness :
  AgentOptions.logger (plainOptions "Billing Agent" "Handles invoices") = None
  /\ (AgentOptions.LOG_AGENT_DEBUG_TRACE (plainOptions "Billing Agent" "Handles invoices")
        <> Some true ->
      isNoop (Agent.logger
                (Agent.constructor (plainOptions "Billing Agent" "Handles invoices"))))
  /\ (AgentOptions.LOG_AGENT_DEBUG_TRACE (plainOptions "Billing Agent" "Handles invoices")
        = Some true ->
      Agent.logger (Agent.constructor (plainOptions "Billing Agent" "Handles invoices"))
      = console).
Proof.
  split; [reflexivity |].
  apply (constructor_logger_default (plainOptions "Billing Agent" "Handles invoices")).
  reflexivity.
Defined.

(** C4, as stated, fails: options with no logger and the debug trace flag
    set give an agent whose [info] writes a line. *)
Lemma constructor_logger_not_always_noop :
  ~ (forall options : AgentOptions.t,
       AgentOptions.logger options = None ->
       isNoop (Agent.logger (Agent.constructor options))).
Proof.
  intros H.
  specialize (H (tracedOptions "Billing Agent" "Handles invoices") eq_refl
                (utf16 "routing") []).
  destruct H as [Hinfo _]. discriminate Hinfo.
Qed.

(** ** The classification schema *)

Lemma conforms_leaf t v : conforms (MkSchema t [] []) v = hasJsonType t v.
Proof. simpl. destruct v; simpl; now rewrite ?andb_true_r. Qed.

(** C5: the schema sent to the model provider marks [userinput],
    [selected_agent] and [confidence] as required, and a response conforms
    to it exactly when it is an object with the three fields present, the
    first two strings and the third a number.  The schema puts no bound on
    the number. *)
Theorem analyzePrompt_schema_requires_all_fields (v : JsValue) :
  schema_required (input_schema analyzePrompt)
    = ["userinput"; "selected_agent"; "confidence"]
  /\ List.map fst (schema_properties (input_schema analyzePrompt))
     = schema_required (input_schema analyzePrompt)
  /\ (conforms (input_schema analyzePrompt) v = true <-> typedResponse v).
Proof.
  split; [reflexivity | split; [reflexivity |]].
  unfold analyzePrompt, input_schema, typedResponse.
  split.
  - intros H. destruct v; try discriminate H.
    cbn [conforms forallb fst snd hasJsonType andb] in H.
    rewrite !andb_true_iff, !bool_decide_eq_true in H.
    destruct H as [([x1 E1] & [x2 E2] & [x3 E3] & _) (H1 & H2 & H3 & _)].
    rewrite E1 in H1. rewrite E2 in H2. rewrite E3 in H3.
    rewrite !andb_true_iff in H1, H2, H3.
    destruct H1 as [H1 _], H2 as [H2 _], H3 as [H3 _].
    destruct x1; try discriminate H1.
    destruct x2; try discriminate H2.
    destruct x3; try discriminate H3.
    exists m. eauto 10.
  - intros (m & u & a & c & -> & E1 & E2 & E3).
    cbn [conforms forallb fst snd hasJsonType andb].
    now rewrite E1, E2, E3.
Qed.

(** The response shown in the documentation conforms to the schema. *)
Example exampleResponse_conforms :
  conforms (input_schema analyzePrompt) exampleResponse = true.
Proof. reflexivity. Qed.

(** A response without [selected_agent] does not. *)
Example missing_selected_agent_rejected :
  conforms (input_schema analyzePrompt)
    (VObject (<["userinput" := VString "hello"]>
              (<["confidence" := VNumber (1 # 2)]> ∅))) = false.
Proof. reflexivity. Qed.

(** C5, as stated, fails on the bound: the schema accepts a response whose
    confidence is 5, which is not a number between 0 and 1. *)
Lemma analyzePrompt_schema_confidence_unbounded :
  ~ (forall v : JsValue,
       conforms (input_schema analyzePrompt) v = true -> specResponse v).
Proof.
  intros H.
  destruct (H overconfidentResponse eq_refl)
    as (m & u & a & c & Hm & _ & _ & Hc & _ & Hle).
  injection Hm as <-.
  assert (c = 5 # 1) as -> by (vm_compute in Hc; congruence).
  revert Hle. unfold Qle. simpl. lia.
Qed.

(** ** Responses *)





(** ** Additional parameters *)

(** C8: the [additionalParams] of an [AgentProcessingResult] maps string
    keys to values of any kind; the optional [additionalParams] argument of
    [processRequest] maps string keys to strings only. *)
Theorem additionalParams_types (m : gmap string JsValue) :
  inhabits AgentProcessingResult.additionalParams_type (VObject m)
  /\ (inhabits Agent.processRequest_additionalParams_type (VObject m)
      <-> forall k v, m !! k = Some v -> exists s, v = VString s).
Proof.
  split.
  - simpl. intros k v _. exact I.
  - simpl. unfold map_Forall. split; intros H k v Hkv.
    + specialize (H k v Hkv). destruct v; try destruct H. eauto.
    + destruct (H k v Hkv) as [s ->]. exact I.
Qed.

(** C8, as stated, fails for [processRequest]: a bag holding a number is an
    [additionalParams] of a result and is not one of [processRequest]. *)
Lemma additionalParams_not_arbitrary_in_processRequest :
  ~ (forall m : gmap string JsValue,
       inhabits AgentProcessingResult.additionalParams_type (VObject m)
       /\ inhabits Agent.processRequest_additionalParams_type (VObject m)).
Proof.
  intros H. destruct (H retryParams) as [_ Hp].
  simpl in Hp. specialize (Hp "retries" (VNumber (3 # 1))).
  apply Hp. reflexivity.
Qed.


(** * Further properties of the identifier derivation *)

(** ** How the scan treats each kind of unit *)

Lemma whitespace_not_special c : isWhiteSpace c = true -> Agent.special c = false.
Proof.
  unfold Agent.special. intros ->. now rewrite orb_true_r.
Qed.

Lemma letter_not_special c : isAsciiLetter c = true -> Agent.special c = false.
Proof.
  unfold Agent.special, isAsciiLetter. intros ->. reflexivity.
Qed.

Lemma letter_not_whitespace c : isAsciiLetter c = true -> isWhiteSpace c = false.
Proof.
  intros H. destruct (isWhiteSpace c) eqn:E; [exfalso | reflexivity].
  unfold isAsciiLetter in H. unit_prop. lia.
Qed.

Lemma hyphen_not_special : Agent.special hyphen = false.
Proof. reflexivity. Qed.

Lemma keyFrom_nil b : keyFrom b [] = [].
Proof. reflexivity. Qed.

Lemma keyFrom_special b c t : Agent.special c = true -> keyFrom b (c :: t) = keyFrom b t.
Proof. intros H. now rewrite keyFrom_cons, H. Qed.

Lemma keyFrom_whitespace b c t :
  isWhiteSpace c = true ->
  keyFrom b (c :: t) = if b then keyFrom true t else hyphen :: keyFrom true t.
Proof.
  intros H. now rewrite keyFrom_cons, (whitespace_not_special c H), H.
Qed.

Lemma keyFrom_kept b c t :
  Agent.special c = false -> isWhiteSpace c = false ->
  keyFrom b (c :: t) = lowerUnit c :: keyFrom false t.
Proof. intros Hs Hw. now rewrite keyFrom_cons, Hs, Hw. Qed.

(** A change after a common prefix that the scan cannot tell apart in
    either state stays invisible behind the prefix. *)
Lemma keyFrom_app_congr (s x y : JsString) :
  (forall b, keyFrom b x = keyFrom b y) ->
  forall b, keyFrom b (s ++ x) = keyFrom b (s ++ y).
Proof.
  intros Hxy. induction s as [| c t IH]; intros b; [apply Hxy |].
  simpl. rewrite !keyFrom_cons, !IH. reflexivity.
Qed.

(** A run of whitespace met inside a run adds nothing. *)
Lemma keyFrom_run_inside (r s : JsString) :
  forallb isWhiteSpace r = true -> keyFrom true (r ++ s) = keyFrom true s.
Proof.
  induction r as [| c t IH]; intros H; [reflexivity |].
  simpl in H. apply andb_true_iff in H as [Hc Ht].
  simpl. rewrite (keyFrom_whitespace true c _ Hc). now apply IH.
Qed.

Lemma keyFrom_run b (r s : JsString) :
  r <> [] -> forallb isWhiteSpace r = true ->
  keyFrom b (r ++ s) = if b then keyFrom true s else hyphen :: keyFrom true s.
Proof.
  destruct r as [| c t]; [congruence |]. intros _ H.
  simpl in H. apply andb_true_iff in H as [Hc Ht].
  simpl. rewrite (keyFrom_whitespace b c _ Hc), (keyFrom_run_inside t s Ht).
  reflexivity.
Qed.

Lemma keyFrom_length b name : (length (keyFrom b name) <= length name)%nat.
Proof.
  revert b. induction name as [| c t IH]; intros b; [reflexivity |].
  rewrite keyFrom_cons. simpl.
  pose proof (IH true) as Ht. pose proof (IH false) as Hf.
  destruct (Agent.special c); [destruct b; lia |].
  destruct (isWhiteSpace c); [destruct b |]; simpl; lia.
Qed.

Lemma keyFrom_all_special b name :
  forallb Agent.special name = true -> keyFrom b name = [].
Proof.
  induction name as [| c t IH]; intros H; [reflexivity |].
  simpl in H. apply andb_true_iff in H as [Hc Ht].
  rewrite (keyFrom_special b c t Hc). now apply IH.
Qed.

Lemma keyFrom_empty_special name :
  keyFrom false name = [] -> forallb Agent.special name = true.
Proof.
  induction name as [| c t IH]; intros H; [reflexivity |].
  rewrite keyFrom_cons in H. simpl.
  destruct (Agent.special c); [now apply IH |].
  destruct (isWhiteSpace c); discriminate H.
Qed.

Lemma keyFrom_split_at_kept b (s1 : JsString) c (s2 : JsString) :
  Agent.special c = false -> isWhiteSpace c = false ->
  keyFrom b (s1 ++ c :: s2) = keyFrom b s1 ++ lowerUnit c :: keyFrom false s2.
Proof.
  intros Hs Hw. revert b. induction s1 as [| d t IH]; intros b.
  - simpl. now rewrite (keyFrom_kept b c s2 Hs Hw).
  - simpl. rewrite !keyFrom_cons, !IH.
    destruct (Agent.special d); [reflexivity |].
    destruct (isWhiteSpace d); [destruct b |]; reflexivity.
Qed.

(** Without whitespace in the name the state of the scan does not matter. *)
Lemma keyFrom_no_whitespace b (s : JsString) :
  existsb isWhiteSpace s = false -> keyFrom b s = keyFrom false s.
Proof.
  revert b. induction s as [| c t IH]; intros b H; [reflexivity |].
  simpl in H. apply orb_false_iff in H as [Hc Ht].
  rewrite !keyFrom_cons, Hc. destruct (Agent.special c); [now apply IH | reflexivity].
Qed.

Lemma keyFrom_app_no_whitespace (s x : JsString) :
  existsb isWhiteSpace s = false ->
  keyFrom false (s ++ x) = keyFrom false s ++ keyFrom false x.
Proof.
  induction s as [| c t IH]; intros H; [reflexivity |].
  simpl in H. apply orb_false_iff in H as [Hc Ht].
  simpl. rewrite !keyFrom_cons, Hc, (IH Ht).
  destruct (Agent.special c); reflexivity.
Qed.

(** A name that ends in whitespace: the scan ends on a hyphen, unless it
    started inside a run and never left it. *)
Lemma keyFrom_trailing_whitespace b (s : JsString) w :
  isWhiteSpace w = true ->
  (b = true /\ keyFrom b (s ++ [w]) = []) \/ last (keyFrom b (s ++ [w])) = Some hyphen.
Proof.
  intros Hw. revert b. induction s as [| c t IH]; intros b.
  - simpl. rewrite (keyFrom_whitespace b w [] Hw), keyFrom_nil.
    destruct b; [left | right]; auto.
  - simpl. rewrite keyFrom_cons.
    destruct (Agent.special c); [apply IH |].
    destruct (isWhiteSpace c).
    + destruct b; [apply IH |]. right.
      destruct (IH true) as [[_ ->] | Hl]; [reflexivity |].
      rewrite last_cons, Hl. reflexivity.
    + right. destruct (IH false) as [[? _] | Hl]; [discriminate |].
      rewrite last_cons, Hl. reflexivity.
Qed.

Lemma lowerUnit_eq_cases a b :
  lowerUnit a = lowerUnit b ->
  a = b \/ (isAsciiLetter a = true /\ isAsciiLetter b = true).
Proof.
  unfold lowerUnit, isAsciiLetter.
  destruct (isAsciiUpper a) eqn:Ea, (isAsciiUpper b) eqn:Eb; intros H.
  - left. lia.
  - right. split; [now rewrite orb_true_r |]. subst b. unit_prop. lia.
  - right. split; [| now rewrite orb_true_r]. subst a. unit_prop. lia.
  - now left.
Qed.

Lemma lowerUnit_eq_scan a b :
  lowerUnit a = lowerUnit b ->
  Agent.special a = Agent.special b /\ isWhiteSpace a = isWhiteSpace b.
Proof.
  intros H. destruct (lowerUnit_eq_cases a b H) as [-> | [Ha Hb]]; [auto |].
  now rewrite (letter_not_special a Ha), (letter_not_special b Hb),
    (letter_not_whitespace a Ha), (letter_not_whitespace b Hb).
Qed.

Lemma keyFrom_sameUpToCase b (n1 n2 : JsString) :
  sameUpToCase n1 n2 -> keyFrom b n1 = keyFrom b n2.
Proof.
  intros H. revert b. induction H as [| a c t1 t2 Hac _ IH]; intros b; [reflexivity |].
  rewrite !keyFrom_cons. destruct (lowerUnit_eq_scan a c Hac) as [<- <-].
  now rewrite Hac, !IH.
Qed.

Lemma lowerUnit_is_lower c : isAsciiLower (lowerUnit c) = isAsciiLetter c.
Proof.
  unfold lowerUnit, isAsciiLetter. destruct (isAsciiUpper c) eqn:Eu.
  - rewrite orb_true_r. unit_prop. lia.
  - now rewrite orb_false_r.
Qed.

Lemma special_not_letter c : Agent.special c = true -> isAsciiLetter c = false.
Proof.
  intros H. destruct (isAsciiLetter c) eqn:E; [| reflexivity].
  rewrite (letter_not_special c E) in H. discriminate.
Qed.

Lemma whitespace_not_letter c : isWhiteSpace c = true -> isAsciiLetter c = false.
Proof.
  intros H. destruct (isAsciiLetter c) eqn:E; [| reflexivity].
  rewrite (letter_not_whitespace c E) in H. discriminate.
Qed.

Lemma keyFrom_letters b (name : JsString) :
  List.filter isAsciiLower (keyFrom b name)
  = List.map lowerUnit (List.filter isAsciiLetter name).
Proof.
  revert b. induction name as [| c t IH]; intros b; [reflexivity |].
  rewrite keyFrom_cons. simpl.
  destruct (Agent.special c) eqn:Hs.
  - now rewrite (special_not_letter c Hs).
  - destruct (isWhiteSpace c) eqn:Hw.
    + rewrite (whitespace_not_letter c Hw). destruct b; simpl; apply IH.
    + simpl. rewrite lowerUnit_is_lower.
      destruct (isAsciiLetter c); simpl; now rewrite IH.
Qed.

(** ** What a caller can rely on *)

(** X1: an identifier is never longer than the name it is derived from. *)
Theorem generateKeyFromName_length (name : JsString) :
  (length (Agent.generateKeyFromName name) <= length name)%nat.
Proof. rewrite generateKeyFromName_keyFrom. apply keyFrom_length. Qed.

(** X2: the identifier is empty exactly when the name holds no ASCII
    letter, no whitespace and no hyphen; the empty name is one such name. *)
Theorem generateKeyFromName_empty_iff (name : JsString) :
  Agent.generateKeyFromName name = [] <-> forallb Agent.special name = true.
Proof.
  rewrite generateKeyFromName_keyFrom. split.
  - apply keyFrom_empty_special.
  - apply keyFrom_all_special.
Qed.

(** X3: the derivation does not see the case of ASCII letters: two names
    that differ only there get the same identifier. *)
Theorem generateKeyFromName_case_insensitive (n1 n2 : JsString)
    (Hcase : sameUpToCase n1 n2) :
  Agent.generateKeyFromName n1 = Agent.generateKeyFromName n2.
Proof. rewrite !generateKeyFromName_keyFrom. now apply keyFrom_sameUpToCase. Qed.

Lemma generateKeyFromName_case_insensitive_witness :
  sameUpToCase (utf16 "Billing Agent") (utf16 "billing AGENT")
  /\ Agent.generateKeyFromName (utf16 "Billing Agent")
     = Agent.generateKeyFromName (utf16 "billing AGENT").
Proof.
  assert (sameUpToCase (utf16 "Billing Agent") (utf16 "billing AGENT")) as H
    by (repeat constructor).
  split; [exact H |].
  exact (generateKeyFromName_case_insensitive _ _ H).
Defined.

(** X4: a unit that the first replacement removes, that is a unit that is
    neither an ASCII letter, nor whitespace, nor a hyphen (a digit,
    punctuation, a non-ASCII unit other than the non-ASCII whitespace),
    leaves no trace wherever it stands: the name with and without it have
    the same identifier. *)
Theorem generateKeyFromName_ignores_special (s1 : JsString) (c : CodeUnit)
    (s2 : JsString) (Hc : Agent.special c = true) :
  Agent.generateKeyFromName (s1 ++ c :: s2) = Agent.generateKeyFromName (s1 ++ s2).
Proof.
  rewrite !generateKeyFromName_keyFrom. apply keyFrom_app_congr.
  intros b. now apply keyFrom_special.
Qed.

Lemma generateKeyFromName_ignores_special_witness :
  Agent.special 55 = true
  /\ Agent.generateKeyFromName (utf16 "Agent" ++ 55 :: utf16 " Smith")
     = Agent.generateKeyFromName (utf16 "Agent" ++ utf16 " Smith").
Proof.
  split; [reflexivity |].
  apply (generateKeyFromName_ignores_special (utf16 "Agent") 55 (utf16 " Smith")).
  reflexivity.
Defined.

(** X5: only the presence of a whitespace run counts, not its length nor
    the kind of whitespace in it: one non-empty run can be exchanged for
    any other. *)
Theorem generateKeyFromName_whitespace_runs (s1 r1 r2 s2 : JsString)
    (Hne1 : r1 <> []) (Hne2 : r2 <> [])
    (Hr1 : forallb isWhiteSpace r1 = true) (Hr2 : forallb isWhiteSpace r2 = true) :
  Agent.generateKeyFromName (s1 ++ r1 ++ s2)
  = Agent.generateKeyFromName (s1 ++ r2 ++ s2).
Proof.
  rewrite !generateKeyFromName_keyFrom. apply keyFrom_app_congr.
  intros b. now rewrite !keyFrom_run.
Qed.

Lemma generateKeyFromName_whitespace_runs_witness :
  [32] <> [] /\ [9; 32; 32] <> []
  /\ forallb isWhiteSpace [32] = true /\ forallb isWhiteSpace [9; 32; 32] = true
  /\ Agent.generateKeyFromName (utf16 "Tech" ++ [32] ++ utf16 "Support")
     = Agent.generateKeyFromName (utf16 "Tech" ++ [9; 32; 32] ++ utf16 "Support").
Proof.
  assert ([32] <> [] :> JsString) as H1 by discriminate.
  assert ([9; 32; 32] <> [] :> JsString) as H2 by discriminate.
  split; [exact H1 | split; [exact H2 | split; [reflexivity | split; [reflexivity |]]]].
  exact (generateKeyFromName_whitespace_runs
           (utf16 "Tech") [32] [9; 32; 32] (utf16 "Support")
           H1 H2 eq_refl eq_refl).
Defined.

(** X6: the name is not trimmed: whitespace at its start gives an
    identifier that starts with a hyphen, whitespace at its end one that
    ends with a hyphen. *)
Theorem generateKeyFromName_no_trim (w : CodeUnit) (s : JsString)
    (Hw : isWhiteSpace w = true) :
  head (Agent.generateKeyFromName (w :: s)) = Some hyphen
  /\ last (Agent.generateKeyFromName (s ++ [w])) = Some hyphen.
Proof.
  rewrite !generateKeyFromName_keyFrom. split.
  - now rewrite (keyFrom_whitespace false w s Hw).
  - destruct (keyFrom_trailing_whitespace false s w Hw) as [[? _] | H];
      [discriminate | exact H].
Qed.

Lemma generateKeyFromName_no_trim_witness :
  isWhiteSpace 32 = true
  /\ head (Agent.generateKeyFromName (32 :: utf16 "Sales Agent")) = Some hyphen
  /\ last (Agent.generateKeyFromName (utf16 "Sales Agent" ++ [32])) = Some hyphen.
Proof.
  split; [reflexivity |].
  apply (generateKeyFromName_no_trim 32 (utf16 "Sales Agent")). reflexivity.
Defined.

(** X7: between two parts without whitespace, one whitespace unit and a
    hyphen give the same identifier. *)
Theorem generateKeyFromName_whitespace_as_hyphen (s1 : JsString) (w : CodeUnit)
    (s2 : JsString) (Hw : isWhiteSpace w = true)
    (H1 : existsb isWhiteSpace s1 = false) (H2 : existsb isWhiteSpace s2 = false) :
  Agent.generateKeyFromName (s1 ++ w :: s2)
  = Agent.generateKeyFromName (s1 ++ hyphen :: s2).
Proof.
  rewrite !generateKeyFromName_keyFrom, !(keyFrom_app_no_whitespace s1) by exact H1.
  f_equal. rewrite (keyFrom_whitespace false w s2 Hw).
  rewrite (keyFrom_kept false hyphen s2 hyphen_not_special eq_refl).
  now rewrite (keyFrom_no_whitespace true s2 H2).
Qed.

Lemma generateKeyFromName_whitespace_as_hyphen_witness :
  isWhiteSpace 32 = true
  /\ existsb isWhiteSpace (utf16 "tech") = false
  /\ existsb isWhiteSpace (utf16 "support") = false
  /\ Agent.generateKeyFromName (utf16 "tech" ++ 32 :: utf16 "support")
     = Agent.generateKeyFromName (utf16 "tech" ++ hyphen :: utf16 "support").
Proof.
  split; [reflexivity | split; [reflexivity | split; [reflexivity |]]].
  apply (generateKeyFromName_whitespace_as_hyphen (utf16 "tech") 32 (utf16 "support"));
    reflexivity.
Defined.

(** X8: the letters of the identifier are the ASCII letters of the name,
    lowercased, in the same order and number. *)
Theorem generateKeyFromName_letters (name : JsString) :
  List.filter isAsciiLower (Agent.generateKeyFromName name)
  = List.map lowerUnit (List.filter isAsciiLetter name).
Proof. rewrite generateKeyFromName_keyFrom. apply keyFrom_letters. Qed.

(** X9: the derivation splits at every letter and every hyphen: the
    identifier of a name is the identifier of what stands before such a
    unit, the unit lowercased, and the identifier of what follows. *)
Theorem generateKeyFromName_splits (s1 : JsString) (c : CodeUnit) (s2 : JsString)
    (Hs : Agent.special c = false) (Hw : isWhiteSpace c = false) :
  Agent.generateKeyFromName (s1 ++ c :: s2)
  = Agent.generateKeyFromName s1 ++ lowerUnit c :: Agent.generateKeyFromName s2.
Proof.
  rewrite !generateKeyFromName_keyFrom. now apply keyFrom_split_at_kept.
Qed.

Lemma generateKeyFromName_splits_witness :
  Agent.special hyphen = false /\ isWhiteSpace hyphen = false
  /\ Agent.generateKeyFromName (utf16 "Tech 2" ++ hyphen :: utf16 "Support Agent")
     = Agent.generateKeyFromName (utf16 "Tech 2")
       ++ lowerUnit hyphen :: Agent.generateKeyFromName (utf16 "Support Agent").
Proof.
  split; [reflexivity | split; [reflexivity |]].
  apply (generateKeyFromName_splits (utf16 "Tech 2") hyphen (utf16 "Support Agent"));
    reflexivity.
Defined.

Lemma keyFrom_app b (s1 s2 : JsString) :
  exists b', keyFrom b (s1 ++ s2) = keyFrom b s1 ++ keyFrom b' s2.
Proof.
  revert b. induction s1 as [| c t IH]; intros b; [now exists b |].
  simpl. rewrite !keyFrom_cons.
  destruct (Agent.special c); [apply IH |].
  destruct (isWhiteSpace c); [destruct b |].
  - apply IH.
  - destruct (IH true) as [b' ->]. now exists b'.
  - destruct (IH false) as [b' ->]. now exists b'.
Qed.

(** X10: the scan goes left to right and never looks back: the identifier
    of a name begins with the identifier of each of its prefixes. *)
Theorem generateKeyFromName_prefix (s1 s2 : JsString) :
  Agent.generateKeyFromName s1 `prefix_of` Agent.generateKeyFromName (s1 ++ s2).
Proof.
  rewrite (generateKeyFromName_keyFrom s1), (generateKeyFromName_keyFrom (s1 ++ s2)).
  destruct (keyFrom_app false s1 s2) as [b' ->]. now exists (keyFrom b' s2).
Qed.

(** ** Responses with more than the three fields *)

Lemma conforms_analyzePrompt_object (m : gmap string JsValue) :
  conforms (input_schema analyzePrompt) (VObject m) = true
  <-> (exists u, m !! "userinput" = Some (VString u))
      /\ (exists a, m !! "selected_agent" = Some (VString a))
      /\ (exists c, m !! "confidence" = Some (VNumber c)).
Proof.
  cbn [analyzePrompt input_schema conforms forallb fst snd hasJsonType andb].
  rewrite !andb_true_iff, !bool_decide_eq_true. split.
  - intros [([x1 E1] & [x2 E2] & [x3 E3] & _) (H1 & H2 & H3 & _)].
    rewrite E1 in H1. rewrite E2 in H2. rewrite E3 in H3.
    rewrite !andb_true_iff in H1, H2, H3.
    destruct H1 as [H1 _], H2 as [H2 _], H3 as [H3 _].
    destruct x1; try discriminate H1.
    destruct x2; try discriminate H2.
    destruct x3; try discriminate H3.
    rewrite E1, E2, E3. repeat split; eauto.
  - intros ([u E1] & [a E2] & [c E3]). rewrite E1, E2, E3.
    repeat split; eauto.
Qed.

(** X11: the schema does not close the object: a conforming response
    stays conforming when a field other than the three required ones is
    added to it. *)
Theorem analyzePrompt_schema_allows_extra_fields
    (m : gmap string JsValue) (k : string) (x : JsValue)
    (Hm : conforms (input_schema analyzePrompt) (VObject m) = true)
    (Hk : k ∉ schema_required (input_schema analyzePrompt)) :
  conforms (input_schema analyzePrompt) (VObject (<[k := x]> m)) = true.
Proof.
  apply conforms_analyzePrompt_object in Hm as (H1 & H2 & H3).
  apply conforms_analyzePrompt_object.
  cbn in Hk. rewrite !not_elem_of_cons in Hk. destruct Hk as (K1 & K2 & K3 & _).
  rewrite !lookup_insert_ne by done. auto.
Qed.

Lemma analyzePrompt_schema_allows_extra_fields_witness :
  conforms (input_schema analyzePrompt) exampleResponse = true
  /\ ("priority" ∉ schema_required (input_schema analyzePrompt))
  /\ conforms (input_schema analyzePrompt)
       (VObject (<["priority" := VString "high"]>
                 (<["userinput" := VString "I need to reset my password"]>
                  (<["selected_agent" := VString "tech-support-agent"]>
                   (<["confidence" := VNumber (95 # 100)]> ∅))))) = true.
Proof.
  assert ("priority" ∉ schema_required (input_schema analyzePrompt)) as Hk.
  { cbn. rewrite !not_elem_of_cons. repeat split; try discriminate.
    apply not_elem_of_nil. }
  split; [reflexivity | split; [exact Hk |]].
  exact (analyzePrompt_schema_allows_extra_fields
           (<["userinput" := VString "I need to reset my password"]>
            (<["selected_agent" := VString "tech-support-agent"]>
             (<["confidence" := VNumber (95 # 100)]> ∅)))
           "priority" (VString "high") eq_refl Hk).
Defined.

(** A no-break space is whitespace for [\s]: it is not removed, it becomes
    a hyphen. *)
Example no_break_space_becomes_hyphen :
  Agent.special 160 = false
  /\ Agent.generateKeyFromName [97; 160; 98] = utf16 "a-b".
Proof. split; reflexivity. Qed.
